(** * The device session coordinator of iDevice Manager for Windows

    A shallow embedding of [DeviceManager] (src/main.py): [run_command],
    [check_connection], [mount_device] and [unmount_device], together with the
    Python string methods they rely on ([str.splitlines], [str.strip],
    [str.split]).  Python strings are modelled as lists of 8-bit characters
    (the Latin-1 range of Unicode code points), a [dict] as a stdpp [gmap].

    The external world (the file system and the processes started by
    [subprocess.run]) is a [world] record; every observable side effect of the
    manager (a command request, a spawned process, a log line, a device-info
    signal, a lock operation) is an [event] appended to the manager's trace. *)

From Stdlib Require Import Ascii String List ZArith Lia Wf_nat.
From stdpp Require Import base gmap list strings.

Abbreviation pystr := (list ascii).

(** A Python string literal. *)
Definition py (s : string) : pystr := list_ascii_of_string s.

(* ------------------------------------------------------------------ *)
(** ** Python string methods *)

Definition code (c : ascii) : nat := nat_of_ascii c.

(** [str.isspace] on one character of the Latin-1 range. *)
Definition py_isspace (c : ascii) : bool :=
  let n := code c in
  ((9 <=? n) && (n <=? 13)) || ((28 <=? n) && (n <=? 32)) || (n =? 133) || (n =? 160).

(** The line boundaries of [str.splitlines] in the Latin-1 range. *)
Definition is_line_boundary (c : ascii) : bool :=
  let n := code c in
  ((10 <=? n) && (n <=? 13)) || ((28 <=? n) && (n <=? 30)) || (n =? 133).

Definition CR : ascii := ascii_of_nat 13.
Definition LF : ascii := ascii_of_nat 10.

(** [str.splitlines()]: [cur] holds the current line, reversed.  A ["\r\n"]
    pair is one boundary; a final boundary opens no empty line. *)
Fixpoint splitlines_from (cur : pystr) (s : pystr) : list pystr :=
  match s with
  | [] => match cur with [] => [] | _ => [rev cur] end
  | c :: rest =>
      if is_line_boundary c then
        if ascii_dec c CR then
          match rest with
          | c' :: rest' =>
              if ascii_dec c' LF then rev cur :: splitlines_from [] rest'
              else rev cur :: splitlines_from [] rest
          | [] => rev cur :: splitlines_from [] rest
          end
        else rev cur :: splitlines_from [] rest
      else splitlines_from (c :: cur) rest
  end.

Definition splitlines (s : pystr) : list pystr := splitlines_from [] s.

Fixpoint lstrip (s : pystr) : pystr :=
  match s with
  | c :: rest => if py_isspace c then lstrip rest else s
  | [] => []
  end.

(** [str.strip()]. *)
Definition py_strip (s : pystr) : pystr := rev (lstrip (rev (lstrip s))).

(** [str.split(sep)] for a one-character separator. *)
Fixpoint py_split (sep : ascii) (s : pystr) : list pystr :=
  match s with
  | [] => [[]]
  | c :: rest =>
      if ascii_dec c sep then [] :: py_split sep rest
      else match py_split sep rest with
           | seg :: segs => (c :: seg) :: segs
           | [] => [[c]]
           end
  end.

(** [sep in s] followed by [s.split(sep, 1)]: [None] when [sep] does not
    occur, otherwise the text before and after its first occurrence. *)
Fixpoint split_first (sep : ascii) (s : pystr) : option (pystr * pystr) :=
  match s with
  | [] => None
  | c :: rest =>
      if ascii_dec c sep then Some ([], rest)
      else match split_first sep rest with
           | Some (k, v) => Some (c :: k, v)
           | None => None
           end
  end.

Fixpoint is_prefix (p s : pystr) : bool :=
  match p, s with
  | [], _ => true
  | a :: p', b :: s' => if ascii_dec a b then is_prefix p' s' else false
  | _ :: _, [] => false
  end.

(** [sub in s] for strings. *)
Fixpoint contains (sub s : pystr) : bool :=
  is_prefix sub s || match s with [] => false | _ :: s' => contains sub s' end.

(* ------------------------------------------------------------------ *)
(** ** Values, results and the outside world *)

(** The values stored in the [device_info] dict. *)
Inductive pyval := PyStr (s : pystr) | PyInt (z : Z).

Abbreviation dict := (gmap pystr pyval).

(** The only exception that can leave [DeviceManager]'s methods:
    [run_command] catches every [Exception] raised around [subprocess.run]. *)
Inductive pyexn := IndexError.

Inductive outcome (A : Type) := Normal (a : A) | Raise (e : pyexn).
Arguments Normal {A} a.
Arguments Raise {A} e.

(** [subprocess.CompletedProcess]. *)
Record completed := {
  returncode : Z;
  stdout : pystr;
  stderr : pystr
}.

(** What [subprocess.run] does with an argument vector and a timeout. *)
Inductive proc_outcome :=
  | Completed (rc : Z) (out err : pystr)
  | TimeoutExpired
  | OSFailure (msg : pystr).

Record world := {
  bin_dir : pystr;                                  (* WINDOWS_BIN_DIR *)
  path_exists : pystr -> bool;                      (* os.path.exists *)
  subprocess_run : list pystr -> Z -> proc_outcome  (* subprocess.run *)
}.

Inductive event :=
  | EvCall (command : pystr) (args : list pystr)   (* run_command is invoked *)
  | EvSpawn (path : pystr) (args : list pystr)     (* subprocess.run starts *)
  | EvExit                                         (* subprocess.run is over *)
  | EvLog (msg level : pystr)                      (* log_signal.emit *)
  | EvDevice (info : dict)                         (* device_update_signal.emit *)
  | EvAcquire                                      (* operation_lock acquired *)
  | EvRelease.                                     (* operation_lock released *)

(** The mutable fields of a [DeviceManager] and what it has done so far. *)
Record dm_state := {
  udid : option pystr;
  trace : list event
}.

(* ------------------------------------------------------------------ *)
(** ** The manager's monad: state passing with Python exceptions *)

Definition M (A : Type) : Type := dm_state -> outcome A * dm_state.

Global Instance M_ret : MRet M := fun A a s => (Normal a, s).
Global Instance M_bind : MBind M := fun A B f m s =>
  match m s with
  | (Normal a, s') => f a s'
  | (Raise e, s') => (Raise e, s')
  end.

Definition raise {A} (e : pyexn) : M A := fun s => (Raise e, s).

Definition add_event (s : dm_state) (e : event) : dm_state :=
  {| udid := udid s; trace := trace s ++ [e] |}.

Definition emit (e : event) : M unit := fun s => (Normal tt, add_event s e).

Definition get_udid : M (option pystr) := fun s => (Normal (udid s), s).

Definition set_udid (u : pystr) : M unit :=
  fun s => (Normal tt, {| udid := Some u; trace := trace s |}).

(** [with self.operation_lock: body]: the lock is released on the way out,
    also when [body] raises. *)
Definition with_lock {A} (body : M A) : M A :=
  fun s =>
    let (r, s') := body (add_event s EvAcquire) in
    (r, add_event s' EvRelease).

(* ------------------------------------------------------------------ *)
(** ** DeviceManager *)

Definition mount_point : pystr := py "Z:\".

(** [os.path.join(WINDOWS_BIN_DIR, tool_name)] (ntpath). *)
Definition get_tool_path (dir tool_name : pystr) : pystr :=
  match rev dir with
  | [] => tool_name
  | c :: _ =>
      if ascii_dec c "\"%char then dir ++ tool_name
      else if ascii_dec c "/"%char then dir ++ tool_name
      else dir ++ ["\"%char] ++ tool_name
  end.

Section DeviceManager.

Variable w : world.

Definition run_command (command : pystr) (args : list pystr) (timeout : Z)
    : M (option completed) :=
  emit (EvCall command args);;
  let cmd_path := get_tool_path (bin_dir w) command in
  if negb (path_exists w cmd_path) then
    emit (EvLog (py "Tool not found: " ++ command) (py "error"));;
    mret None
  else
    emit (EvSpawn cmd_path args);;
    match subprocess_run w (cmd_path :: args) timeout with
    | Completed rc out err =>
        emit EvExit;;
        mret (Some {| returncode := rc; stdout := out; stderr := err |})
    | TimeoutExpired =>
        emit EvExit;;
        emit (EvLog (py "Command timed out: " ++ command) (py "error"));;
        mret None
    | OSFailure e =>
        emit EvExit;;
        emit (EvLog (py "Command failed: " ++ command ++ py " - " ++ e) (py "error"));;
        mret None
    end.


(** The loop of [check_connection] that fills [device_info] from the output
    of [ideviceinfo]: [if ":" in line: key, val = line.split(":", 1);
    device_info[key.strip()] = val.strip()]. *)
Fixpoint info_loop (lines : list pystr) (device_info : dict) : dict :=
  match lines with
  | [] => device_info
  | line :: rest =>
      match split_first ":"%char line with
      | Some (key, val) => info_loop rest (<[py_strip key := PyStr (py_strip val)]> device_info)
      | None => info_loop rest device_info
      end
  end.

Definition parse_info (out : pystr) : dict := info_loop (splitlines out) ∅.

Definition CurrentCapacity : pystr := py "CurrentCapacity".
Definition BatteryLevel : pystr := py "BatteryLevel".

(** [for line in ...splitlines(): if "CurrentCapacity" in line:
    device_info["BatteryLevel"] = line.split("=")[1].strip()]; the index
    raises [IndexError] on a line without ["="]. *)
Fixpoint battery_loop (lines : list pystr) (device_info : dict) : outcome dict :=
  match lines with
  | [] => Normal device_info
  | line :: rest =>
      if contains CurrentCapacity line then
        match nth_error (py_split "="%char line) 1 with
        | Some v => battery_loop rest (<[BatteryLevel := PyStr (py_strip v)]> device_info)
        | None => Raise IndexError
        end
      else battery_loop rest device_info
  end.

(** [if battery_result and "CurrentCapacity" in battery_result.stdout: ...] *)
Definition battery_step (battery_result : option completed) (device_info : dict)
    : outcome dict :=
  match battery_result with
  | Some r =>
      if contains CurrentCapacity (stdout r)
      then battery_loop (splitlines (stdout r)) device_info
      else Normal device_info
  | None => Normal device_info
  end.

Definition lift {A} (r : outcome A) : M A :=
  match r with Normal a => mret a | Raise e => raise e end.

(** [not result or not result.stdout.strip()]. *)
Definition no_output (result : option completed) : bool :=
  match result with
  | None => true
  | Some r => match py_strip (stdout r) with [] => true | _ => false end
  end.

(** [result.stdout.strip().split('\n')[0]]. *)
Definition first_udid (out : pystr) : pystr :=
  match py_split LF (py_strip out) with
  | u :: _ => u
  | [] => []
  end.

Definition info_ok (result : option completed) : bool :=
  match result with Some r => Z.eqb (returncode r) 0 | None => false end.

Definition check_connection : M bool :=
  with_lock (
    result ← run_command (py "idevice_id.exe") [py "-l"] 30;
    if no_output result then
      emit (EvDevice ∅);; mret false
    else
      let u := match result with Some r => first_udid (stdout r) | None => [] end in
      set_udid u;;
      info_result ← run_command (py "ideviceinfo.exe") [py "-u"; u] 30;
      match info_result with
      | Some r =>
          if Z.eqb (returncode r) 0 then
            let device_info := info_loop (splitlines (stdout r)) ∅ in
            battery_result ← run_command (py "idevicediagnostics.exe")
                               [py "ioregentry"; py "AppleSmartBattery"] 30;
            device_info ← lift (battery_step battery_result device_info);
            emit (EvDevice device_info);;
            mret true
          else emit (EvDevice ∅);; mret false
      | None => emit (EvDevice ∅);; mret false
      end).

Definition unmount_device : M bool :=
  result ← run_command (py "fusermount.exe") [py "-u"; mount_point] 30;
  mret (info_ok result).

Definition mount_device : M bool :=
  with_lock (
    u ← get_udid;
    match u with
    | None | Some [] => mret false
    | Some id =>
        unmount_device;;
        result ← run_command (py "ifuse.exe") [mount_point; py "--udid"; id] 30;
        mret (info_ok result)
    end).

End DeviceManager.

(* ------------------------------------------------------------------ *)
(** ** Concrete worlds *)

Definition nl : pystr := [LF].

Definition bin_path : pystr := py "C:\Program Files\iDeviceManager\bin".

Definition tool (name : pystr) : pystr := get_tool_path bin_path name.

(** The end-to-end scenario of the spec: one device [ABCD1234] whose info
    dump and battery entry are given; every other invocation exits 1. *)
Definition happy_world : world := {|
  bin_dir := bin_path;
  path_exists := fun _ => true;
  subprocess_run := fun argv _ =>
    if decide (argv = [tool (py "idevice_id.exe"); py "-l"]) then
      Completed 0 (py "ABCD1234" ++ nl) []
    else if decide (argv = [tool (py "ideviceinfo.exe"); py "-u"; py "ABCD1234"]) then
      Completed 0 (py "DeviceName: Test iPhone" ++ nl ++ py "ProductType: iPhone14,2" ++ nl
                   ++ py "ProductVersion: 16.6" ++ nl) []
    else if decide (argv = [tool (py "idevicediagnostics.exe"); py "ioregentry";
                            py "AppleSmartBattery"]) then
      Completed 0 (py "CurrentCapacity = 87" ++ nl) []
    else Completed 1 [] []
|}.

Definition fresh : dm_state := {| udid := None; trace := [] |}.

(** The dicts published by a trace. *)
Fixpoint published (t : list event) : list dict :=
  match t with
  | [] => []
  | EvDevice d :: t' => d :: published t'
  | _ :: t' => published t'
  end.

Definition happy_info : dict :=
  <[py "DeviceName" := PyStr (py "Test iPhone")]>
  (<[py "ProductType" := PyStr (py "iPhone14,2")]>
  (<[py "ProductVersion" := PyStr (py "16.6")]>
  (<[BatteryLevel := PyStr (py "87")]> ∅))).

(** A world where the diagnostics tool prints its registry entry as an XML
    property list, the format [idevicediagnostics ioregentry] uses: the line
    naming [CurrentCapacity] carries no ["="]. *)
Definition plist_world : world := {|
  bin_dir := bin_path;
  path_exists := fun _ => true;
  subprocess_run := fun argv t =>
    if decide (argv = [tool (py "idevicediagnostics.exe"); py "ioregentry";
                       py "AppleSmartBattery"]) then
      Completed 0 (py "<key>CurrentCapacity</key>" ++ nl ++ py "<integer>87</integer>" ++ nl) []
    else subprocess_run happy_world argv t
|}.

(** No tool is installed. *)
Definition empty_world : world := {|
  bin_dir := bin_path;
  path_exists := fun _ => false;
  subprocess_run := fun _ _ => Completed 0 [] []
|}.

(** Every tool is installed and every process outlives its timeout. *)
Definition hung_world : world := {|
  bin_dir := bin_path;
  path_exists := fun _ => true;
  subprocess_run := fun _ _ => TimeoutExpired
|}.

(** The device is listed, but [ideviceinfo] exits with status 1. *)
Definition info_fails_world : world := {|
  bin_dir := bin_path;
  path_exists := fun _ => true;
  subprocess_run := fun argv t =>
    if decide (argv = [tool (py "ideviceinfo.exe"); py "-u"; py "ABCD1234"]) then
      Completed 1 [] (py "ERROR: Could not connect to lockdownd")
    else subprocess_run happy_world argv t
|}.

(** The four result kinds the spec gives [CommandRunner.run]; the source has
    no such type (it returns a [CompletedProcess] or [None]). *)
Inductive spec_result_kind := KindOk | KindNotFound | KindTimedOut | KindIOError.

(* ------------------------------------------------------------------ *)
(** ** The main window: [iDeviceManager] *)

(** [str(n)] / [f"{n}"] for an [int]. *)
Fixpoint pos_digits (fuel : nat) (z : Z) (acc : pystr) : pystr :=
  match fuel with
  | O => acc
  | S f =>
      let acc' := ascii_of_nat (48 + Z.to_nat (z mod 10)%Z) :: acc in
      if Z.eqb (z / 10)%Z 0 then acc' else pos_digits f (z / 10)%Z acc'
  end.

Definition z_str (z : Z) : pystr :=
  match z with
  | Z0 => py "0"
  | Zpos p => pos_digits (Pos.size_nat p) (Zpos p) []
  | Zneg p => "-"%char :: pos_digits (Pos.size_nat p) (Zpos p) []
  end.

(** [f"{v}"] for a dict value. *)
Definition py_format (v : pyval) : pystr :=
  match v with PyStr s => s | PyInt z => z_str z end.

(** The white space [int()] skips around its argument: in the Latin-1 range
    [\t\n\v\f\r], space, [\x85] and [\xa0] (not [\x1c]..[\x1f], which
    [str.isspace] accepts). *)
Definition int_space (c : ascii) : bool :=
  let n := code c in ((9 <=? n) && (n <=? 13)) || (n =? 32) || (n =? 133) || (n =? 160).

Fixpoint int_lstrip (s : pystr) : pystr :=
  match s with
  | c :: rest => if int_space c then int_lstrip rest else s
  | [] => []
  end.

Definition is_digit (c : ascii) : bool := (48 <=? code c) && (code c <=? 57).

(** Decimal digits, with single underscores between digits. *)
Fixpoint parse_dec (s : pystr) (acc : Z) : option Z :=
  match s with
  | [] => Some acc
  | c :: rest =>
      if is_digit c then parse_dec rest (acc * 10 + Z.of_nat (code c - 48))%Z
      else if ascii_dec c "_" then
        match rest with
        | d :: _ => if is_digit d then parse_dec rest acc else None
        | [] => None
        end
      else None
  end.

Definition parse_unsigned (s : pystr) : option Z :=
  match s with
  | d :: _ => if is_digit d then parse_dec s 0 else None
  | [] => None
  end.

(** [int(s)] for a string: [None] where it raises [ValueError]. *)
Definition py_int_str (s : pystr) : option Z :=
  match rev (int_lstrip (rev (int_lstrip s))) with
  | c :: rest =>
      if ascii_dec c "+" then parse_unsigned rest
      else if ascii_dec c "-" then option_map Z.opp (parse_unsigned rest)
      else parse_unsigned (c :: rest)
  | [] => None
  end.

Definition py_int (v : pyval) : option Z :=
  match v with PyStr s => py_int_str s | PyInt z => Some z end.

(** [QProgressBar.setValue] on the default range 0..100: a value outside the
    range is ignored (and one beyond the C [int] range makes PyQt raise
    [OverflowError], caught by the caller's bare [except]; same effect). *)
Definition progress_set (v old : Z) : Z :=
  if (0 <=? v)%Z && (v <=? 100)%Z then v else old.

(** The text of [device_status]: ["No device connected"] as created,
    ["✔ Device Connected"] and ["✖ No Device"] as [update_device_info] sets
    it (with their colours). *)
Inductive status := StatusInitial | StatusConnected | StatusNoDevice.

Inductive reply := ReplyYes | ReplyNo.

(** A background thread started by the window. *)
Inductive job := FlashJob (firmware : pystr) | JailbreakJob (tool : pystr).

(** The window's state.  [log] holds the [(message, level)] pairs passed to
    [log_message], whose HTML rendering (with a time stamp) is not modelled;
    [questions] the [(title, text)] of the [QMessageBox.question] dialogs. *)
Record window := {
  device_info_w : option dict;          (* self.device_info, unset before the first update *)
  device_name_label : pystr;
  device_model_label : pystr;
  ios_version_label : pystr;
  battery_label : pystr;
  device_info_label : pystr;
  device_status : status;
  battery_progress : Z;
  flash_progress : Z;
  jb_progress : Z;
  tabs_enabled : bool;                  (* self.tab_widget.isEnabled() *)
  log : list (pystr * pystr);
  questions : list (pystr * pystr);
  started : list job
}.

Definition log_message (message level : pystr) (win : window) : window :=
  {| device_info_w := device_info_w win; device_name_label := device_name_label win;
     device_model_label := device_model_label win; ios_version_label := ios_version_label win;
     battery_label := battery_label win; device_info_label := device_info_label win;
     device_status := device_status win; battery_progress := battery_progress win;
     flash_progress := flash_progress win; jb_progress := jb_progress win;
     tabs_enabled := tabs_enabled win; log := log win ++ [(message, level)];
     questions := questions win; started := started win |}.

Definition set_tabs_enabled (b : bool) (win : window) : window :=
  {| device_info_w := device_info_w win; device_name_label := device_name_label win;
     device_model_label := device_model_label win; ios_version_label := ios_version_label win;
     battery_label := battery_label win; device_info_label := device_info_label win;
     device_status := device_status win; battery_progress := battery_progress win;
     flash_progress := flash_progress win; jb_progress := jb_progress win;
     tabs_enabled := b; log := log win; questions := questions win; started := started win |}.

Definition ask (title text : pystr) (win : window) : window :=
  {| device_info_w := device_info_w win; device_name_label := device_name_label win;
     device_model_label := device_model_label win; ios_version_label := ios_version_label win;
     battery_label := battery_label win; device_info_label := device_info_label win;
     device_status := device_status win; battery_progress := battery_progress win;
     flash_progress := flash_progress win; jb_progress := jb_progress win;
     tabs_enabled := tabs_enabled win; log := log win; questions := questions win ++ [(title, text)];
     started := started win |}.

Definition start_thread (j : job) (win : window) : window :=
  {| device_info_w := device_info_w win; device_name_label := device_name_label win;
     device_model_label := device_model_label win; ios_version_label := ios_version_label win;
     battery_label := battery_label win; device_info_label := device_info_label win;
     device_status := device_status win; battery_progress := battery_progress win;
     flash_progress := flash_progress win; jb_progress := jb_progress win;
     tabs_enabled := tabs_enabled win; log := log win; questions := questions win;
     started := started win ++ [j] |}.

(** [update_progress]: both bars take the value. *)
Definition update_progress (value : Z) (win : window) : window :=
  {| device_info_w := device_info_w win; device_name_label := device_name_label win;
     device_model_label := device_model_label win; ios_version_label := ios_version_label win;
     battery_label := battery_label win; device_info_label := device_info_label win;
     device_status := device_status win; battery_progress := battery_progress win;
     flash_progress := progress_set value (flash_progress win);
     jb_progress := progress_set value (jb_progress win);
     tabs_enabled := tabs_enabled win; log := log win; questions := questions win;
     started := started win |}.

(** [f"{self.device_mgr.udid}"]. *)
Definition format_udid (u : option pystr) : pystr :=
  match u with Some s => s | None => py "None" end.

Definition info_indent : pystr := nl ++ py "                ".

(** The dashboard text of [update_device_info] (a triple-quoted f-string). *)
Definition info_text (name model version udid_text battery : pystr) : pystr :=
  info_indent ++ py "<b>Device Name:</b> " ++ name ++ py "<br>"
  ++ info_indent ++ py "<b>Model:</b> " ++ model ++ py "<br>"
  ++ info_indent ++ py "<b>iOS Version:</b> " ++ version ++ py "<br>"
  ++ info_indent ++ py "<b>UDID:</b> " ++ udid_text ++ py "<br>"
  ++ info_indent ++ py "<b>Battery:</b> " ++ battery ++ py "%"
  ++ nl ++ py "            ".

(** [device_info.get(key, default)]. *)
Definition dict_get (d : dict) (key : pystr) (default : pyval) : pyval :=
  match d !! key with Some v => v | None => default end.

(** [update_device_info(device_info)], the slot of [device_update_signal];
    [mgr_udid] is [self.device_mgr.udid].  [QLabel.setText(name)] raises
    [TypeError] on a non-string [name]: [None]. *)
Definition update_device_info (mgr_udid : option pystr) (device_info : dict) (win : window)
    : option window :=
  if decide (device_info = ∅) then
    Some (log_message (py "Device disconnected") (py "warning")
      {| device_info_w := device_info_w win;
         device_name_label := py "No device connected";
         device_model_label := []; ios_version_label := []; battery_label := [];
         device_info_label := py "Connect an iOS device to view information";
         device_status := StatusNoDevice;
         battery_progress := battery_progress win;
         flash_progress := flash_progress win; jb_progress := jb_progress win;
         tabs_enabled := tabs_enabled win; log := log win; questions := questions win;
         started := started win |})
  else
    let name := dict_get device_info (py "DeviceName") (PyStr (py "Unknown Device")) in
    let model := py_format (dict_get device_info (py "ProductType") (PyStr (py "Unknown Model"))) in
    let version := py_format (dict_get device_info (py "ProductVersion") (PyStr (py "Unknown Version"))) in
    let battery := dict_get device_info BatteryLevel (PyStr (py "N/A")) in
    match name with
    | PyInt _ => None
    | PyStr name =>
        Some (log_message (py "Connected: " ++ name ++ py " (" ++ model ++ py ")") (py "success")
          {| device_info_w := Some device_info;
             device_name_label := name;
             device_model_label := py "Model: " ++ model;
             ios_version_label := py "iOS: " ++ version;
             battery_label := py "Battery: " ++ py_format battery ++ py "%";
             device_info_label := info_text name model version (format_udid mgr_udid) (py_format battery);
             device_status := StatusConnected;
             battery_progress :=
               match py_int battery with
               | Some v => progress_set v (battery_progress win)
               | None => battery_progress win
               end;
             flash_progress := flash_progress win; jb_progress := jb_progress win;
             tabs_enabled := tabs_enabled win; log := log win; questions := questions win;
             started := started win |})
    end.

(** [if not self.device_mgr.udid]. *)
Definition udid_truthy (u : option pystr) : bool :=
  match u with Some (_ :: _) => true | _ => false end.

(** [start_flash]: [selected] is the text of the current firmware item, if
    any, [answer] the button clicked in the confirmation box. *)
Definition start_flash (mgr_udid : option pystr) (selected : option pystr) (answer : reply)
    (win : window) : window :=
  if negb (udid_truthy mgr_udid) then log_message (py "No device connected") (py "error") win
  else match selected with
  | None => log_message (py "Select firmware first") (py "warning") win
  | Some firmware =>
      let win := ask (py "Confirm Flash") (py "Flash " ++ firmware ++ py "? This cannot be undone!") win in
      match answer with
      | ReplyNo => win
      | ReplyYes =>
          start_thread (FlashJob firmware)
            (set_tabs_enabled false
               (log_message (py "Starting " ++ firmware ++ py " flash...") (py "info") win))
      end
  end.

Definition start_jailbreak (mgr_udid : option pystr) (selected : option pystr) (answer : reply)
    (win : window) : window :=
  if negb (udid_truthy mgr_udid) then log_message (py "No device connected") (py "error") win
  else match selected with
  | None => log_message (py "Select jailbreak tool first") (py "warning") win
  | Some tool =>
      let win := ask (py "Confirm Jailbreak")
                     (py "Run " ++ tool ++ py " jailbreak? This may void your warranty!") win in
      match answer with
      | ReplyNo => win
      | ReplyYes =>
          start_thread (JailbreakJob tool)
            (set_tabs_enabled false
               (log_message (py "Starting " ++ tool ++ py " jailbreak...") (py "info") win))
      end
  end.

(** The loop of [run_flash] / [run_jailbreak]: [time.sleep(1)], the
    progress signal (delivered to [update_progress]) and a log line per step. *)
Fixpoint run_steps_ui (steps : list (Z * pystr)) (win : window) : window :=
  match steps with
  | [] => win
  | (progress, message) :: rest =>
      run_steps_ui rest (log_message message (py "info") (update_progress progress win))
  end.

Definition flash_steps : list (Z * pystr) :=
  [(10%Z, py "Preparing device..."); (25%Z, py "Entering recovery mode...");
   (50%Z, py "Downloading firmware..."); (75%Z, py "Verifying firmware...");
   (90%Z, py "Flashing device..."); (100%Z, py "Flash complete!")].

Definition jailbreak_steps : list (Z * pystr) :=
  [(10%Z, py "Preparing device..."); (30%Z, py "Exploiting vulnerability...");
   (60%Z, py "Installing jailbreak..."); (90%Z, py "Finalizing..."); (100%Z, py "Jailbreak complete!")].

(** [run_flash(firmware)]; nothing in its [try] block raises, and the
    [finally] clause re-enables the tabs. *)
Definition run_flash (firmware : pystr) (win : window) : window :=
  set_tabs_enabled true
    (log_message (firmware ++ py " flashed successfully!") (py "success") (run_steps_ui flash_steps win)).

Definition run_jailbreak (tool : pystr) (win : window) : window :=
  set_tabs_enabled true
    (log_message (tool ++ py " jailbreak successful!") (py "success") (run_steps_ui jailbreak_steps win)).

(** The window as [__init__] leaves it (progress bars at their reset value
    -1). *)
Definition initial_window : window :=
  {| device_info_w := None; device_name_label := py "No device connected";
     device_model_label := []; ios_version_label := []; battery_label := [];
     device_info_label := py "Connect an iOS device to view information";
     device_status := StatusInitial; battery_progress := (-1)%Z; flash_progress := (-1)%Z;
     jb_progress := (-1)%Z;
     tabs_enabled := true; log := []; questions := []; started := [] |}.

(* ------------------------------------------------------------------ *)
(** ** [run_command] in isolation *)

(** What one [run_command] call returns and the events it produces; neither
    depends on the manager's state. *)
Definition run_value (w : world) (c : pystr) (a : list pystr) (t : Z) : option completed :=
  match fst (run_command w c a t fresh) with Normal r => r | Raise _ => None end.

Definition run_events (w : world) (c : pystr) (a : list pystr) (t : Z) : list event :=
  trace (snd (run_command w c a t fresh)).

Lemma run_command_frame w c a t s :
  run_command w c a t s =
  (Normal (run_value w c a t), {| udid := udid s; trace := trace s ++ run_events w c a t |}).
Proof.
  unfold run_value, run_events, run_command, mbind, M_bind, mret, M_ret, emit, add_event; cbn.
  destruct (path_exists w _); cbn.
  - destruct (subprocess_run w _ t); cbn; rewrite <- ?app_assoc; reflexivity.
  - rewrite <- ?app_assoc; reflexivity.
Qed.

Lemma frame_eq s l1 l2 :
  {| udid := udid {| udid := udid s; trace := trace s ++ l1 |};
     trace := (trace s ++ l1) ++ l2 |} = {| udid := udid s; trace := trace s ++ l1 ++ l2 |}.
Proof. cbn. by rewrite app_assoc. Qed.

(* ------------------------------------------------------------------ *)
(** ** Framing: a method only appends to the trace *)

Definition reset (s : dm_state) : dm_state := {| udid := udid s; trace := [] |}.

(** [m] reads the trace never and extends it only at its end. *)
Definition frame {A} (m : M A) : Prop :=
  forall s, m s = (fst (m (reset s)),
                   {| udid := udid (snd (m (reset s)));
                      trace := trace s ++ trace (snd (m (reset s))) |}).

Lemma state_eta s : {| udid := udid s; trace := trace s ++ [] |} = s.
Proof. destruct s; cbn. by rewrite app_nil_r. Qed.

Lemma frame_ret {A} (a : A) : frame (mret a).
Proof. intros s. unfold mret, M_ret; cbn. by rewrite state_eta. Qed.

Lemma frame_raise {A} e : frame (@raise A e).
Proof. intros s. unfold raise; cbn. by rewrite state_eta. Qed.

Lemma frame_emit e : frame (emit e).
Proof. intros s. reflexivity. Qed.

Lemma frame_get_udid : frame get_udid.
Proof. intros s. unfold get_udid; cbn. by rewrite state_eta. Qed.

Lemma frame_set_udid u : frame (set_udid u).
Proof. intros s. unfold set_udid; cbn. by rewrite app_nil_r. Qed.

Lemma frame_lift {A} (r : outcome A) : frame (lift r).
Proof. destruct r; [apply frame_ret | apply frame_raise]. Qed.

Lemma frame_bind {A B} (m : M A) (k : A -> M B) :
  frame m -> (forall a, frame (k a)) -> frame (m ≫= k).
Proof.
  intros Hm Hk s. unfold mbind, M_bind.
  rewrite (Hm s). destruct (m (reset s)) as [[a|e] s1]; cbn; [|reflexivity].
  rewrite (Hk a {| udid := udid s1; trace := trace s ++ trace s1 |}).
  rewrite (Hk a s1). cbn. unfold reset; cbn. by rewrite app_assoc.
Qed.

Lemma frame_with_lock {A} (body : M A) : frame body -> frame (with_lock body).
Proof.
  intros Hb s. unfold with_lock.
  rewrite (Hb (add_event s EvAcquire)), (Hb (add_event (reset s) EvAcquire)).
  unfold add_event, reset; cbn. by rewrite <- !app_assoc.
Qed.

Lemma frame_run_command w c a t : frame (run_command w c a t).
Proof.
  intros s. rewrite (run_command_frame w c a t s), (run_command_frame w c a t (reset s)).
  reflexivity.
Qed.

Ltac frame_tac :=
  repeat match goal with
  | |- frame (mbind _ _) => apply frame_bind; [|intros ?]
  | |- frame (emit _) => apply frame_emit
  | |- frame (mret _) => apply frame_ret
  | |- frame (raise _) => apply frame_raise
  | |- frame (lift _) => apply frame_lift
  | |- frame (run_command _ _ _ _) => apply frame_run_command
  | |- frame (set_udid _) => apply frame_set_udid
  | |- frame get_udid => apply frame_get_udid
  | |- frame (with_lock _) => apply frame_with_lock
  | |- frame (if ?b then _ else _) => destruct b
  | |- frame (match ?x with _ => _ end) => destruct x
  | |- frame (let _ := _ in _) => cbv zeta
  end.

Lemma frame_unmount_device w : frame (unmount_device w).
Proof. unfold unmount_device. frame_tac. Qed.

Lemma frame_check_connection w : frame (check_connection w).
Proof. unfold check_connection. frame_tac. Qed.

Lemma frame_mount_device w : frame (mount_device w).
Proof. unfold mount_device. frame_tac. apply frame_unmount_device. Qed.

(* ------------------------------------------------------------------ *)
(** ** Helper lemmas on traces *)

Lemma published_app l1 l2 : published (l1 ++ l2) = published l1 ++ published l2.
Proof. induction l1 as [|e l1 IH]; [done|]. destruct e; cbn; by rewrite ?IH. Qed.

Lemma published_run_events w c a t : published (run_events w c a t) = [].
Proof.
  unfold run_events, run_command, mbind, M_bind, mret, M_ret, emit, add_event; cbn.
  destruct (path_exists w _); cbn; [destruct (subprocess_run w _ t)|]; reflexivity.
Qed.

Lemma run_events_head w c a t : exists l, run_events w c a t = EvCall c a :: l.
Proof.
  unfold run_events, run_command, mbind, M_bind, mret, M_ret, emit, add_event; cbn.
  destruct (path_exists w _); cbn; [destruct (subprocess_run w _ t)|]; eexists; reflexivity.
Qed.

Ltac run_steps :=
  unfold mbind, M_bind, mret, M_ret, emit, add_event, set_udid, get_udid, lift, raise in *;
  cbn -[py run_value run_events no_output first_udid unmount_device];
  repeat (rewrite run_command_frame; cbn -[py run_value run_events no_output first_udid unmount_device]).

(** A poll whose listing command yields nothing: [{}] is published, nothing
    else is run and the stored identifier is kept. *)
Lemma check_connection_no_output w s :
  no_output (run_value w (py "idevice_id.exe") [py "-l"] 30) = true ->
  check_connection w s =
  (Normal false, {| udid := udid s;
                    trace := trace s ++ [EvAcquire] ++ run_events w (py "idevice_id.exe") [py "-l"] 30
                             ++ [EvDevice ∅; EvRelease] |}).
Proof.
  intros H. unfold check_connection, with_lock. run_steps.
  rewrite H. cbn -[py run_value run_events].
  by rewrite <- ?app_assoc.
Qed.

Lemma mount_device_no_udid w s :
  udid s = None ->
  mount_device w s = (Normal false, {| udid := None; trace := trace s ++ [EvAcquire; EvRelease] |}).
Proof.
  intros H. unfold mount_device, with_lock. run_steps. rewrite H. cbn.
  by rewrite <- app_assoc.
Qed.

Lemma mount_device_udid w s u :
  udid s = Some u -> u <> [] ->
  mount_device w s =
  (Normal (info_ok (run_value w (py "ifuse.exe") [mount_point; py "--udid"; u] 30)),
   {| udid := Some u;
      trace := trace s ++ [EvAcquire]
               ++ run_events w (py "fusermount.exe") [py "-u"; mount_point] 30
               ++ run_events w (py "ifuse.exe") [mount_point; py "--udid"; u] 30
               ++ [EvRelease] |}).
Proof.
  intros H Hne. unfold mount_device, with_lock. run_steps. rewrite H.
  destruct u as [|x u']; [done|]. cbn -[py run_value run_events].
  unfold unmount_device. run_steps. by rewrite <- ?app_assoc.
Qed.

(* ------------------------------------------------------------------ *)
(** ** Polling: [check_connection] *)

(** C1 (as amended). In the end-to-end scenario (the listing prints
    ["ABCD1234\n"], [ideviceinfo -u ABCD1234] prints the three properties, the
    diagnostics dump prints ["CurrentCapacity = 87\n"]), from any prior state
    the poll returns [True], stores the identifier [ABCD1234] and publishes
    exactly one dict: the three properties and ["BatteryLevel"] holding the
    string ["87"]. *)
Theorem check_connection_happy_path (s : dm_state) :
  exists l,
    check_connection happy_world s =
    (Normal true, {| udid := Some (py "ABCD1234"); trace := trace s ++ l |})
    /\ published l = [happy_info].
Proof.
  rewrite (frame_check_connection happy_world s).
  exists (trace (snd (check_connection happy_world (reset s)))).
  destruct s as [u t]. split; [|vm_compute; reflexivity].
  vm_compute. reflexivity.
Qed.

(** C1 (counterexample). In that scenario the published battery level is the
    text ["87"], stored in the same dict as the properties, not the integer
    87. *)
Lemma check_connection_battery_is_text :
  published (trace (snd (check_connection happy_world fresh))) = [happy_info]
  /\ happy_info !! BatteryLevel = Some (PyStr (py "87"))
  /\ happy_info !! BatteryLevel <> Some (PyInt 87).
Proof. vm_compute. split; [reflexivity|split; [reflexivity|discriminate]]. Qed.

(** C4. For every prior state, when the listing command yields no output
    (it fails, or its stdout strips to nothing), the poll publishes the empty
    dict, runs no further command and returns [False]; the stored identifier
    is left as it was. *)
Theorem check_connection_disconnected (w : world) (s : dm_state)
  (Hnone : no_output (run_value w (py "idevice_id.exe") [py "-l"] 30) = true) :
  check_connection w s =
  (Normal false, {| udid := udid s;
                    trace := trace s ++ [EvAcquire] ++ run_events w (py "idevice_id.exe") [py "-l"] 30
                             ++ [EvDevice ∅; EvRelease] |}).
Proof. exact (check_connection_no_output w s Hnone). Qed.

Lemma check_connection_disconnected_witness :
  no_output (run_value empty_world (py "idevice_id.exe") [py "-l"] 30) = true
  /\ check_connection empty_world fresh =
     (Normal false, {| udid := None;
                       trace := [] ++ [EvAcquire] ++ run_events empty_world (py "idevice_id.exe") [py "-l"] 30
                                ++ [EvDevice ∅; EvRelease] |}).
Proof.
  split; [vm_compute; reflexivity|].
  apply (check_connection_disconnected empty_world fresh). vm_compute. reflexivity.
Defined.

(** C5. When the listing command yields an identifier but [ideviceinfo] does
    not exit with status 0 (or fails to run), the poll stores the identifier
    and publishes only the empty dict. *)
Theorem check_connection_info_failure (w : world) (s : dm_state) (r : completed)
  (Hlist : run_value w (py "idevice_id.exe") [py "-l"] 30 = Some r)
  (Hout : no_output (Some r) = false)
  (Hinfo : info_ok (run_value w (py "ideviceinfo.exe") [py "-u"; first_udid (stdout r)] 30) = false) :
  exists l,
    check_connection w s = (Normal false, {| udid := Some (first_udid (stdout r)); trace := trace s ++ l |})
    /\ published l = [∅].
Proof.
  unfold check_connection, with_lock. run_steps. rewrite Hlist, Hout.
  cbn -[py run_value run_events first_udid]. run_steps.
  destruct (run_value w (py "ideviceinfo.exe") _ 30) as [ir|]; cbn in Hinfo |- *;
    [rewrite Hinfo|]; cbn -[py run_value run_events];
    (eexists; split; [rewrite <- ?app_assoc; reflexivity|]);
    rewrite ?published_app, ?published_run_events; reflexivity.
Qed.

Lemma check_connection_info_failure_witness :
  exists l,
    check_connection info_fails_world fresh =
    (Normal false, {| udid := Some (py "ABCD1234"); trace := [] ++ l |})
    /\ published l = [∅].
Proof.
  apply (check_connection_info_failure info_fails_world fresh
           {| returncode := 0; stdout := py "ABCD1234" ++ nl; stderr := [] |});
    vm_compute; reflexivity.
Defined.

(** C8 (code bug). The diagnostics tool prints its entry as a property list:
    the line [<key>CurrentCapacity</key>] has no ["="], so
    [line.split("=")[1]] raises [IndexError], which leaves [check_connection]
    (the lock is released on the way out). *)
Theorem check_connection_plist_battery_raises :
  fst (check_connection plist_world fresh) = Raise IndexError
  /\ last (trace (snd (check_connection plist_world fresh))) = Some EvRelease.
Proof. vm_compute. split; reflexivity. Qed.

(* ------------------------------------------------------------------ *)
(** ** Mounting *)

(** C6. Without a stored identifier [mount_device] returns [False] and runs
    no command (it only takes and releases the lock).  With a stored
    identifier [u] it first runs the unmount command on the fixed mount point,
    then [ifuse Z:\ --udid u], and returns [True] exactly when that command
    completed with exit code 0. *)
Theorem mount_device_spec (w : world) (s : dm_state) :
  (udid s = None ->
     mount_device w s = (Normal false, {| udid := None; trace := trace s ++ [EvAcquire; EvRelease] |}))
  /\ (forall u, udid s = Some u -> u <> [] ->
       snd (mount_device w s) =
       {| udid := Some u;
          trace := trace s ++ [EvAcquire]
                   ++ run_events w (py "fusermount.exe") [py "-u"; mount_point] 30
                   ++ run_events w (py "ifuse.exe") [mount_point; py "--udid"; u] 30
                   ++ [EvRelease] |}
       /\ (fst (mount_device w s) = Normal true <->
           exists r, run_value w (py "ifuse.exe") [mount_point; py "--udid"; u] 30 = Some r
                     /\ returncode r = 0%Z)).
Proof.
  split; [apply mount_device_no_udid|].
  intros u Hu Hne. rewrite (mount_device_udid w s u Hu Hne). cbn -[py run_value run_events].
  split; [reflexivity|]. unfold info_ok.
  destruct (run_value w (py "ifuse.exe") [mount_point; py "--udid"; u] 30) as [r|]; split.
  - intros H. injection H as H. exists r. split; [done|]. exact (proj1 (Z.eqb_eq _ _) H).
  - intros (r' & E & H). injection E as <-. by rewrite (proj2 (Z.eqb_eq _ _) H).
  - discriminate.
  - by intros (r' & E & _).
Qed.

Lemma mount_device_spec_witness :
  udid fresh = None
  /\ mount_device happy_world fresh =
     (Normal false, {| udid := None; trace := [] ++ [EvAcquire; EvRelease] |}).
Proof.
  split; [reflexivity|]. apply (proj1 (mount_device_spec happy_world fresh)). reflexivity.
Defined.

(** C10. A poll that finds no device leaves the stored identifier as it was,
    and a following [mount_device] passes its identifier check and runs
    [ifuse] with that stale identifier. *)
Theorem stale_udid_after_disconnect (w1 w2 : world) (s : dm_state) (u : pystr)
  (Hu : udid s = Some u) (Hne : u <> [])
  (Hnone : no_output (run_value w1 (py "idevice_id.exe") [py "-l"] 30) = true) :
  udid (snd (check_connection w1 s)) = Some u
  /\ In (EvCall (py "ifuse.exe") [mount_point; py "--udid"; u])
        (trace (snd (mount_device w2 (snd (check_connection w1 s))))).
Proof.
  destruct (run_events_head w2 (py "ifuse.exe") [mount_point; py "--udid"; u] 30) as [l E].
  rewrite (check_connection_no_output w1 s Hnone). cbn [udid snd].
  split; [exact Hu|].
  erewrite (mount_device_udid w2 _ u); [|exact Hu|exact Hne].
  cbn [trace snd]. rewrite E.
  do 3 (apply in_or_app; right). apply in_or_app; left. left. reflexivity.
Qed.

Lemma stale_udid_after_disconnect_witness :
  udid (snd (check_connection empty_world {| udid := Some (py "ABCD1234"); trace := [] |}))
    = Some (py "ABCD1234")
  /\ In (EvCall (py "ifuse.exe") [mount_point; py "--udid"; py "ABCD1234"])
        (trace (snd (mount_device happy_world
                       (snd (check_connection empty_world {| udid := Some (py "ABCD1234"); trace := [] |}))))).
Proof.
  apply (stale_udid_after_disconnect empty_world happy_world
           {| udid := Some (py "ABCD1234"); trace := [] |} (py "ABCD1234"));
    [reflexivity | discriminate | vm_compute; reflexivity].
Defined.

(* ------------------------------------------------------------------ *)
(** ** [run_command] *)

(** C7 (as amended). [run_command] never raises and only appends to the
    trace.  A missing tool gives [None] after the log line
    ["Tool not found: <name>"] at level ["error"], with no process started;
    a returned [CompletedProcess] carries the exit code of the process (which
    may be nonzero); for an existing tool the result is [None] exactly when the
    process timed out or failed to run; every [None] comes with an
    ["error"] log line. *)
Theorem run_command_spec (w : world) (c : pystr) (a : list pystr) (t : Z) (s : dm_state) :
  run_command w c a t s =
    (Normal (run_value w c a t), {| udid := udid s; trace := trace s ++ run_events w c a t |})
  /\ (path_exists w (get_tool_path (bin_dir w) c) = false ->
        run_value w c a t = None
        /\ run_events w c a t = [EvCall c a; EvLog (py "Tool not found: " ++ c) (py "error")])
  /\ (forall r, run_value w c a t = Some r ->
        subprocess_run w (get_tool_path (bin_dir w) c :: a) t
        = Completed (returncode r) (stdout r) (stderr r))
  /\ (path_exists w (get_tool_path (bin_dir w) c) = true ->
        run_value w c a t = None <->
        forall rc out err, subprocess_run w (get_tool_path (bin_dir w) c :: a) t <> Completed rc out err)
  /\ (run_value w c a t = None -> exists msg, In (EvLog msg (py "error")) (run_events w c a t)).
Proof.
  split; [apply run_command_frame|].
  unfold run_value, run_events, run_command, mbind, M_bind, mret, M_ret, emit, add_event.
  cbn -[py get_tool_path].
  destruct (path_exists w _) eqn:Ex; cbn -[py get_tool_path].
  - destruct (subprocess_run w _ t) as [rc out err| |e] eqn:Ep; cbn -[py get_tool_path].
    + split; [discriminate|]. split; [by intros r [= <-]|]. split.
      * intros _. split; [discriminate|]. intros H. by destruct (H rc out err).
      * discriminate.
    + split; [discriminate|]. split; [discriminate|]. split.
      * intros _. split; [intros _ rc out err; discriminate|reflexivity].
      * intros _. eexists. right. right. right. left. reflexivity.
    + split; [discriminate|]. split; [discriminate|]. split.
      * intros _. split; [intros _ rc out err; discriminate|reflexivity].
      * intros _. eexists. right. right. right. left. reflexivity.
  - split; [by intros _|]. split; [discriminate|]. split; [discriminate|].
    intros _. eexists. right. left. reflexivity.
Qed.

Lemma run_command_spec_witness :
  path_exists empty_world (get_tool_path (bin_dir empty_world) (py "ifuse.exe")) = false
  /\ run_value empty_world (py "ifuse.exe") [] 30 = None
  /\ run_events empty_world (py "ifuse.exe") [] 30
     = [EvCall (py "ifuse.exe") []; EvLog (py "Tool not found: " ++ py "ifuse.exe") (py "error")].
Proof.
  split; [reflexivity|].
  apply (proj1 (proj2 (run_command_spec empty_world (py "ifuse.exe") [] 30 fresh))).
  reflexivity.
Defined.

(** C7 (counterexample). No function of the value [run_command] returns tells
    a missing tool from a timeout: both give [None]. *)
Lemma run_command_kinds_collapse :
  ~ exists kind : option completed -> spec_result_kind,
      kind (run_value empty_world (py "ideviceinfo.exe") [] 30) = KindNotFound
      /\ kind (run_value hung_world (py "ideviceinfo.exe") [] 30) = KindTimedOut.
Proof.
  intros (kind & H1 & H2). vm_compute in H1, H2. congruence.
Qed.

(* ------------------------------------------------------------------ *)
(** ** Parsing the info dump *)

Lemma split_first_spec sep l k v :
  split_first sep l = Some (k, v) <-> l = k ++ sep :: v /\ ~ In sep k.
Proof.
  revert k v. induction l as [|c l IH]; intros k v; cbn.
  - split; [discriminate|]. intros [H _]. by destruct k.
  - destruct (ascii_dec c sep) as [->|Hc].
    + split.
      * intros [= <- <-]. split; [done|]. by intros [].
      * intros [Hl Hk]. destruct k as [|x k]; cbn in Hl.
        -- by injection Hl as ->.
        -- injection Hl as -> _. destruct Hk. by left.
    + destruct (split_first sep l) as [[k' v']|] eqn:E.
      * split.
        -- intros [= <- <-]. destruct (proj1 (IH k' v') eq_refl) as [-> Hk'].
           split; [done|]. intros [->|H]; [done|by apply Hk'].
        -- intros [Hl Hk]. destruct k as [|x k]; cbn in Hl; injection Hl as -> Hl; [done|].
           assert (Hs : Some (k', v') = Some (k, v)).
           { apply IH. split; [done|]. intros H. apply Hk. by right. }
           by injection Hs as -> ->.
      * split; [discriminate|]. intros [Hl Hk].
        destruct k as [|x k]; cbn in Hl; injection Hl as -> Hl; [done|].
        assert (Hs : None = Some (k, v)).
        { apply IH. split; [done|]. intros H. apply Hk. by right. }
        discriminate.
Qed.

(** Whether a line yields an entry for key [k]. *)
Definition no_entry_for (k : pystr) (lines : list pystr) : Prop :=
  forall line key val, In line lines -> split_first ":"%char line = Some (key, val) -> py_strip key <> k.

Lemma info_loop_lookup (lines : list pystr) (di : dict) (k : pystr) (v : pyval) :
  info_loop lines di !! k = Some v <->
  (exists pre line post key val,
     lines = pre ++ line :: post /\ split_first ":"%char line = Some (key, val)
     /\ py_strip key = k /\ v = PyStr (py_strip val) /\ no_entry_for k post)
  \/ (di !! k = Some v /\ no_entry_for k lines).
Proof.
  revert di. induction lines as [|l lines IH]; intros di; cbn.
  - split.
    + intros H. right. split; [done|]. by intros ? ? ? [].
    + intros [(pre & ? & ? & ? & ? & Hl & _)|[H _]]; [|done]. by destruct pre.
  - assert (Hstep : info_loop (l :: lines) di =
                    info_loop lines (match split_first ":"%char l with
                                     | Some (key, val) => <[py_strip key := PyStr (py_strip val)]> di
                                     | None => di end)).
    { cbn. by destruct (split_first ":"%char l) as [[? ?]|]. }
    cbn in Hstep. rewrite Hstep, IH. clear Hstep. split.
    + intros [(pre & line & post & key & val & -> & Hs & Hk & Hv & Hn)|[Hd Hn]].
      * left. exists (l :: pre), line, post, key, val. done.
      * destruct (split_first ":"%char l) as [[key val]|] eqn:E.
        -- destruct (decide (py_strip key = k)) as [<-|Hne].
           ++ rewrite lookup_insert_eq in Hd. injection Hd as <-.
              left. exists [], l, lines, key, val. done.
           ++ rewrite lookup_insert_ne in Hd by done. right. split; [done|].
              intros line key' val' [<-|Hin] Hs'; [congruence|]. by apply (Hn line key' val').
        -- right. split; [done|].
           intros line key' val' [<-|Hin] Hs'; [congruence|]. by apply (Hn line key' val').
    + intros [(pre & line & post & key & val & Hl & Hs & Hk & Hv & Hn)|[Hd Hn]].
      * destruct pre as [|x pre]; cbn in Hl; injection Hl as -> Hl.
        -- right. subst. rewrite Hs, lookup_insert_eq. done.
        -- left. exists pre, line, post, key, val. done.
      * right. split.
        -- destruct (split_first ":"%char l) as [[key val]|] eqn:E; [|done].
           rewrite lookup_insert_ne; [done|]. apply (Hn l key val); [by left|done].
        -- intros line key val Hin. apply Hn. by right.
Qed.

(** C2. An entry [k ↦ v] of the dict parsed from the info dump comes from a
    line [before ++ ":" ++ after] whose [before] has no colon (so the split is
    at the first colon and [after] may contain colons), with [k] the stripped
    [before] and [v] the stripped [after]; and no later line with a colon
    yields the same stripped key (the last occurrence wins).  Lines without a
    colon yield nothing. *)
Theorem parse_info_spec (out : pystr) (k : pystr) (v : pyval) :
  parse_info out !! k = Some v <->
  exists pre line post before after,
    splitlines out = pre ++ line :: post
    /\ line = before ++ ":"%char :: after /\ ~ In ":"%char before
    /\ py_strip before = k /\ v = PyStr (py_strip after)
    /\ (forall line' before' after', In line' post ->
          line' = before' ++ ":"%char :: after' -> ~ In ":"%char before' ->
          py_strip before' <> k).
Proof.
  unfold parse_info. rewrite info_loop_lookup, lookup_empty. split.
  - intros [(pre & line & post & key & val & Hl & Hs & Hk & Hv & Hn)|[H _]]; [|discriminate].
    apply split_first_spec in Hs as [-> Hnk].
    exists pre, (key ++ ":"%char :: val), post, key, val.
    do 5 (split; [done|]).
    intros line' b' a' Hin -> Hb'. apply (Hn _ b' a' Hin). by apply split_first_spec.
  - intros (pre & line & post & b & a & Hl & -> & Hb & Hk & Hv & Hn). left.
    exists pre, (b ++ ":"%char :: a), post, b, a.
    split; [done|]. split; [by apply split_first_spec|]. do 2 (split; [done|]).
    intros line' key val Hin Hs. apply split_first_spec in Hs as [-> Hnk].
    exact (Hn _ key val Hin eq_refl Hnk).
Qed.

Example parse_info_colon_in_value :
  parse_info (py "  URL : http://x:8080 " ++ nl ++ py "no colon here" ++ nl ++ py "URL: second")
  = {[py "URL" := PyStr (py "second")]}.
Proof. vm_compute. reflexivity. Qed.

(* ------------------------------------------------------------------ *)
(** ** Extracting the battery level *)

Lemma is_prefix_app p s q : is_prefix p s = true -> is_prefix p (s ++ q) = true.
Proof.
  revert s. induction p as [|a p IH]; intros [|b s]; cbn; try done.
  destruct (ascii_dec a b); [apply IH|done].
Qed.

Lemma contains_app_r sub s q : contains sub s = true -> contains sub (s ++ q) = true.
Proof.
  induction s as [|c s IH]; cbn.
  - intros H. apply orb_true_iff in H as [H|H]; [|done].
    destruct sub; [by destruct q|discriminate].
  - intros H. apply orb_true_iff in H as [H|H]; apply orb_true_iff.
    + left. by apply (is_prefix_app _ (c :: s)).
    + right. by apply IH.
Qed.

Lemma contains_app_l sub p s : contains sub s = true -> contains sub (p ++ s) = true.
Proof.
  induction p as [|c p IH]; cbn; [done|]. intros H. apply orb_true_iff. right. by apply IH.
Qed.

Lemma splitlines_from_infix s :
  forall cur line, In line (splitlines_from cur s) -> exists p q, rev cur ++ s = p ++ line ++ q.
Proof.
  induction s as [s IH] using (well_founded_induction (well_founded_ltof _ (@length ascii))).
  intros cur line. destruct s as [|c s]; cbn.
  - destruct cur; cbn; [done|]. intros [<-|[]]. exists [], []. by rewrite !app_nil_r.
  - assert (Hb : forall pre rest, c :: s = pre ++ rest -> length rest < length (c :: s) ->
                 In line (rev cur :: splitlines_from [] rest) ->
                 exists p q, rev cur ++ c :: s = p ++ line ++ q).
    { intros pre rest Hpre Hlen [<-|Hin].
      - by exists [], (c :: s).
      - destruct (IH rest Hlen [] line Hin) as (p & q & Hpq). cbn in Hpq.
        exists (rev cur ++ pre ++ p), q. rewrite Hpre, Hpq. by rewrite <- !app_assoc. }
    destruct (is_line_boundary c).
    + destruct (ascii_dec c CR).
      * destruct s as [|c' s'].
        -- apply (Hb [c] []); cbn; [done|lia].
        -- destruct (ascii_dec c' LF).
           ++ apply (Hb [c; c'] s'); cbn; [done|lia].
           ++ apply (Hb [c] (c' :: s')); cbn; [done|lia].
      * apply (Hb [c] s); cbn; [done|lia].
    + intros Hin. destruct (IH s ltac:(unfold ltof; cbn; lia) (c :: cur) line Hin) as (p & q & Hpq).
      exists p, q. rewrite <- Hpq. cbn. by rewrite <- app_assoc.
Qed.

Lemma splitlines_contains sub s line :
  In line (splitlines s) -> contains sub line = true -> contains sub s = true.
Proof.
  intros Hin Hc. destruct (splitlines_from_infix s [] line Hin) as (p & q & Hpq).
  cbn in Hpq. rewrite Hpq. apply contains_app_l, contains_app_r, Hc.
Qed.

Lemma py_split_app sep x y : ~ In sep x -> py_split sep (x ++ sep :: y) = x :: py_split sep y.
Proof.
  induction x as [|c x IH]; intros Hx; cbn.
  - by destruct (ascii_dec sep sep).
  - destruct (ascii_dec c sep) as [->|_]; [destruct Hx; by left|].
    rewrite IH; [done|]. intros H. apply Hx. by right.
Qed.

Lemma py_split_nosep sep x : ~ In sep x -> py_split sep x = [x].
Proof.
  induction x as [|c x IH]; intros Hx; cbn; [done|].
  destruct (ascii_dec c sep) as [->|_]; [destruct Hx; by left|].
  rewrite IH; [done|]. intros H. apply Hx. by right.
Qed.

Lemma split_first_None sep l : split_first sep l = None -> ~ In sep l.
Proof.
  induction l as [|c l IH]; cbn; [by intros _ []|].
  destruct (ascii_dec c sep) as [->|Hc]; [discriminate|].
  destruct (split_first sep l) as [[? ?]|]; [discriminate|].
  intros _ [->|H]; [done|]. by apply IH.
Qed.

(** The text between the first ["="] of a line and the next one (or the end
    of the line) is the second field of [line.split("=")]. *)
Lemma py_split_second line before v rest :
  line = before ++ "="%char :: v ++ rest -> ~ In "="%char before -> ~ In "="%char v ->
  (rest = [] \/ exists rest', rest = "="%char :: rest') ->
  nth_error (py_split "="%char line) 1 = Some v.
Proof.
  intros -> Hb Hv [->|[rest' ->]].
  - rewrite py_split_app, app_nil_r, py_split_nosep by done. done.
  - rewrite !py_split_app by done. done.
Qed.

Lemma eq_fields line :
  In "="%char line ->
  exists before v rest, line = before ++ "="%char :: v ++ rest /\ ~ In "="%char before
    /\ ~ In "="%char v /\ (rest = [] \/ exists rest', rest = "="%char :: rest').
Proof.
  intros Hin. destruct (split_first "="%char line) as [[before after]|] eqn:E;
    [|by apply split_first_None in E].
  apply split_first_spec in E as [-> Hb].
  destruct (split_first "="%char after) as [[v rest']|] eqn:E2.
  - apply split_first_spec in E2 as [-> Hv].
    exists before, v, ("="%char :: rest'). eauto 10.
  - apply split_first_None in E2.
    exists before, after, []. rewrite app_nil_r. eauto 10.
Qed.

Lemma battery_loop_none (lines : list pystr) (di : dict) :
  Forall (fun l => contains CurrentCapacity l = false) lines -> battery_loop lines di = Normal di.
Proof.
  revert di. induction lines as [|l lines IH]; intros di Hf; cbn [battery_loop]; [done|].
  inversion Hf as [|? ? Hl Hr]; subst. rewrite Hl. by apply IH.
Qed.

Lemma battery_loop_last (pre : list pystr) (line : pystr) (post : list pystr) (di : dict) (v : pystr) :
  (forall l, In l pre -> contains CurrentCapacity l = true -> In "="%char l) ->
  contains CurrentCapacity line = true ->
  nth_error (py_split "="%char line) 1 = Some v ->
  Forall (fun l => contains CurrentCapacity l = false) post ->
  battery_loop (pre ++ line :: post) di = Normal (<[BatteryLevel := PyStr (py_strip v)]> di).
Proof.
  intros Hpre Hc Hv Hpost. revert di. induction pre as [|x pre IH]; intros di; cbn [battery_loop app].
  - rewrite Hc, Hv. by apply battery_loop_none.
  - destruct (contains CurrentCapacity x) eqn:Hx.
    + destruct (eq_fields x (Hpre x (or_introl eq_refl) Hx)) as (b & v' & r' & Hxe & Hb & Hv' & Hr').
      rewrite (py_split_second x b v' r' Hxe Hb Hv' Hr').
      rewrite IH; [by rewrite insert_insert_eq|]. intros l Hl. apply Hpre. by right.
    + apply IH. intros l Hl. apply Hpre. by right.
Qed.

(** C3 (as amended).  For diagnostics output in which every line containing
    ["CurrentCapacity"] has an ["="]: when no line contains
    ["CurrentCapacity"] the dict is left unchanged; otherwise ["BatteryLevel"]
    is set to the string obtained by stripping the text between the first
    ["="] and the next ["="] (or the end of the line) of the LAST line that
    contains ["CurrentCapacity"].  The value is kept as text. *)
Theorem battery_step_spec (r : completed) (di : dict)
  (Heq : forall line, In line (splitlines (stdout r)) ->
         contains CurrentCapacity line = true -> In "="%char line) :
  (Forall (fun line => contains CurrentCapacity line = false) (splitlines (stdout r)) ->
     battery_step (Some r) di = Normal di)
  /\ (forall pre line post,
        splitlines (stdout r) = pre ++ line :: post ->
        contains CurrentCapacity line = true ->
        Forall (fun l => contains CurrentCapacity l = false) post ->
        exists before v rest,
          line = before ++ "="%char :: v ++ rest /\ ~ In "="%char before /\ ~ In "="%char v
          /\ (rest = [] \/ exists rest', rest = "="%char :: rest')
          /\ battery_step (Some r) di = Normal (<[BatteryLevel := PyStr (py_strip v)]> di)).
Proof.
  unfold battery_step. split.
  - intros Hf. destruct (contains CurrentCapacity (stdout r)); [|done].
    by apply battery_loop_none.
  - intros pre line post Hl Hc Hpost.
    assert (Hin : In line (splitlines (stdout r))).
    { rewrite Hl. apply in_or_app. right. by left. }
    destruct (eq_fields line (Heq line Hin Hc)) as (b & v & rest & Hle & Hb & Hv & Hr).
    exists b, v, rest. do 4 (split; [done|]).
    rewrite (splitlines_contains _ _ _ Hin Hc), Hl.
    apply battery_loop_last; [|done|by apply (py_split_second line b v rest)|done].
    intros l Hl'. apply Heq. rewrite Hl. apply in_or_app. by left.
Qed.

Definition battery_out : completed :=
  {| returncode := 0;
     stdout := py "CurrentCapacity = 87" ++ nl ++ py "CurrentCapacity = 50" ++ nl;
     stderr := [] |}.

Lemma battery_out_has_eq line :
  In line (splitlines (stdout battery_out)) ->
  contains CurrentCapacity line = true -> In "="%char line.
Proof.
  intros Hin _. vm_compute in Hin.
  destruct Hin as [<-|[<-|[]]]; repeat (first [now left | right]).
Qed.

Lemma battery_step_spec_witness :
  exists before v rest,
    py "CurrentCapacity = 50" = before ++ "="%char :: v ++ rest /\ ~ In "="%char before
    /\ ~ In "="%char v /\ (rest = [] \/ exists rest', rest = "="%char :: rest')
    /\ battery_step (Some battery_out) ∅ = Normal (<[BatteryLevel := PyStr (py_strip v)]> ∅).
Proof.
  apply (proj2 (battery_step_spec battery_out ∅ battery_out_has_eq)
           [py "CurrentCapacity = 87"] (py "CurrentCapacity = 50") []);
    [vm_compute; reflexivity | vm_compute; reflexivity | constructor].
Defined.

(** C3 (counterexample).  With two [CurrentCapacity] lines the later one
    wins, and the level is stored as the text ["50"], not as an integer read
    from the first line. *)
Lemma battery_step_last_line_text :
  battery_step (Some battery_out) ∅ = Normal (<[BatteryLevel := PyStr (py "50")]> ∅)
  /\ battery_step (Some battery_out) ∅ <> Normal (<[BatteryLevel := PyInt 87]> ∅).
Proof.
  split; [vm_compute; reflexivity|].
  vm_compute. intros H. injection H as H. discriminate.
Qed.

(* ------------------------------------------------------------------ *)
(** ** Concurrent callers and [operation_lock] *)

(** Several threads run manager methods at once; each thread performs the
    events of its own call one at a time, and the scheduler interleaves them.
    [operation_lock] is a [threading.Lock]: acquiring it waits while it is
    held.  [inflight] counts the processes started and not yet over. *)
Record conf := {
  locked : bool;
  inflight : nat;
  threads : list (list event)
}.

Definition act (e : event) (lk : bool) (n : nat) : option (bool * nat) :=
  match e with
  | EvAcquire => if lk then None else Some (true, n)
  | EvRelease => Some (false, n)
  | EvSpawn _ _ => Some (lk, S n)
  | EvExit => Some (lk, pred n)
  | _ => Some (lk, n)
  end.

Inductive cstep : conf -> conf -> Prop :=
  | cstep_run pre e t post lk n lk' n' :
      act e lk n = Some (lk', n') ->
      cstep {| locked := lk; inflight := n; threads := pre ++ (e :: t) :: post |}
            {| locked := lk'; inflight := n'; threads := pre ++ t :: post |}.

Inductive op := Refresh | Mount | Unmount.

Definition op_method (o : op) : world -> M bool :=
  match o with
  | Refresh => check_connection
  | Mount => mount_device
  | Unmount => unmount_device
  end.

(** The events of one call of [o], made against the world [w] from the
    manager state [s]. *)
Definition op_events (o : op) (w : world) (s : dm_state) : list event :=
  trace (snd (op_method o w (reset s))).

Definition initial (jobs : list (op * world * dm_state)) : conf :=
  {| locked := false; inflight := 0;
     threads := map (fun j => op_events j.1.1 j.1.2 j.2) jobs |}.

(** One event of thread [i], if it can run. *)
Definition step_at (c : conf) (i : nat) : option conf :=
  match threads c !! i with
  | Some (e :: t) =>
      match act e (locked c) (inflight c) with
      | Some (lk', n') => Some {| locked := lk'; inflight := n'; threads := <[i := t]> (threads c) |}
      | None => None
      end
  | _ => None
  end.

Fixpoint run_sched (c : conf) (sched : list nat) : option conf :=
  match sched with
  | [] => Some c
  | i :: sched' => match step_at c i with Some c' => run_sched c' sched' | None => None end
  end.

Lemma step_at_sound c i c' : step_at c i = Some c' -> cstep c c'.
Proof.
  unfold step_at. destruct (threads c !! i) as [[|e t]|] eqn:Hi; try discriminate.
  destruct (act e (locked c) (inflight c)) as [[lk' n']|] eqn:Ha; [|discriminate].
  intros [= <-]. destruct c as [lk n ts]; cbn in *.
  pose proof (cstep_run (take i ts) e t (drop (S i) ts) lk n lk' n' Ha) as Hs.
  rewrite take_drop_middle in Hs by done.
  rewrite insert_take_drop; [done|]. by eapply lookup_lt_Some.
Qed.

Lemma run_sched_sound c sched c' : run_sched c sched = Some c' -> rtc cstep c c'.
Proof.
  revert c. induction sched as [|i sched IH]; intros c; cbn.
  - intros [= <-]. reflexivity.
  - destruct (step_at c i) as [c1|] eqn:E; [|discriminate].
    intros H. eapply rtc_l; [exact (step_at_sound c i c1 E)|]. by apply IH.
Qed.

(** C9 (counterexample).  [unmount_device] does not take the lock: while a
    poll holds it and runs [idevice_id -l], a concurrent [unmount_device] (as
    in [closeEvent]) starts [fusermount], so two commands are in flight. *)
Lemma unmount_overlaps_refresh :
  exists c, rtc cstep (initial [(Refresh, happy_world, fresh); (Unmount, happy_world, fresh)]) c
            /\ inflight c = 2.
Proof.
  eexists. split.
  - apply (run_sched_sound _ [0; 0; 0; 1; 1]). vm_compute. reflexivity.
  - vm_compute. reflexivity.
Qed.

(** Well-bracketed command events between [EvAcquire] and [EvRelease]:
    [scan o l] follows [l] from "a process is running" = [o]. *)
Fixpoint scan (o : bool) (l : list event) : option bool :=
  match l with
  | [] => Some o
  | EvAcquire :: _ | EvRelease :: _ => None
  | EvSpawn _ _ :: r => if o then None else scan true r
  | EvExit :: r => if o then scan false r else None
  | _ :: r => scan o r
  end.

(** A thread that holds the lock, with ([o = true]) or without a process of
    its own running: the rest of its events end with the release. *)
Fixpoint held (o : bool) (t : list event) : bool :=
  match t with
  | [] => false
  | [EvRelease] => negb o
  | EvRelease :: _ => false
  | EvAcquire :: _ => false
  | EvSpawn _ _ :: r => negb o && held true r
  | EvExit :: r => o && held false r
  | _ :: r => held o r
  end.

(** A thread that has not started: it will take the lock first. *)
Definition idle (t : list event) : bool :=
  match t with EvAcquire :: r => held false r | _ => false end.

Definition valid (t : list event) : bool :=
  idle t || held false t || held true t || match t with [] => true | _ => false end.

Definition holder (t : list event) : bool := held false t || held true t.

Fixpoint count (f : list event -> bool) (ts : list (list event)) : nat :=
  match ts with
  | [] => 0
  | t :: ts' => (if f t then 1 else 0) + count f ts'
  end.

Definition inv (c : conf) : Prop :=
  Forall (fun t => valid t = true) (threads c)
  /\ count holder (threads c) = (if locked c then 1 else 0)
  /\ inflight c = count (held true) (threads c).

Lemma count_app f pre x post :
  count f (pre ++ x :: post) = count f pre + (if f x then 1 else 0) + count f post.
Proof. induction pre as [|y pre IH]; cbn; [done|]. rewrite IH. lia. Qed.

Lemma count_le f g ts : (forall t, f t = true -> g t = true) -> count f ts <= count g ts.
Proof.
  intros Hfg. induction ts as [|t ts IH]; cbn; [done|].
  destruct (f t) eqn:E; [rewrite (Hfg t E)|destruct (g t)]; lia.
Qed.

Lemma held_excl t : held false t = true -> held true t = false.
Proof.
  revert t. fix IH 1. intros [|e t]; [done|].
  destruct e; cbn; try done.
  - (* EvCall *) apply IH.
  - (* EvLog *) apply IH.
  - (* EvDevice *) apply IH.
  - (* EvRelease *) by destruct t.
Qed.

Lemma Forall_app_cons (P : list event -> Prop) pre x post :
  Forall P (pre ++ x :: post) <-> Forall P pre /\ P x /\ Forall P post.
Proof. rewrite Forall_app, Forall_cons. tauto. Qed.

Ltac inv_finish t :=
  unfold valid, holder, idle in *; cbn [held negb andb orb] in *;
  destruct (held false t) eqn:H0; destruct (held true t) eqn:H1;
  try (rewrite (held_excl t H0) in H1; discriminate);
  cbn in *; try discriminate;
  repeat split; auto; repeat (match goal with b : bool |- _ => destruct b end); cbn in *; lia.

Lemma inv_step c c' : cstep c c' -> inv c -> inv c'.
Proof.
  intros [pre e t post lk n lk' n' Ha] (Hv & Hh & Hn); cbn in *.
  apply Forall_app_cons in Hv as (Hpre & Hx & Hpost).
  rewrite count_app in Hh, Hn. unfold inv; cbn.
  rewrite Forall_app_cons, !count_app.
  destruct e; cbn in Ha.
  - injection Ha as <- <-. inv_finish t.
  - injection Ha as <- <-. inv_finish t.
  - injection Ha as <- <-. inv_finish t.
  - injection Ha as <- <-. inv_finish t.
  - injection Ha as <- <-. inv_finish t.
  - destruct lk; [discriminate|]. injection Ha as <- <-. inv_finish t.
  - injection Ha as <- <-. destruct t as [|e' t].
    + unfold valid, holder, idle in *; cbn in *. repeat split; auto; destruct lk; lia.
    + unfold valid, holder, idle in Hx; cbn in Hx. discriminate.
Qed.

Lemma inv_rtc c c' : rtc cstep c c' -> inv c -> inv c'.
Proof. induction 1 as [|x y z Hs _ IH]; [done|]. intros H. apply IH. by apply (inv_step x y). Qed.

Lemma scan_app o l1 l2 :
  scan o (l1 ++ l2) = match scan o l1 with Some o' => scan o' l2 | None => None end.
Proof.
  revert o. induction l1 as [|e l1 IH]; intros o; [done|].
  destruct e; cbn; try apply IH; try done; destruct o; try done; apply IH.
Qed.

Lemma held_scan o l :
  held o (l ++ [EvRelease]) = match scan o l with Some false => true | _ => false end.
Proof.
  revert o. induction l as [|e l IH]; intros o.
  - by destruct o.
  - destruct e; cbn; try apply IH; try done.
    + destruct o; cbn; [done|apply IH].
    + destruct o; cbn; [apply IH|done].
    + by destruct l.
Qed.

(** [m] appends a well-bracketed run of command events and no lock event. *)
Definition closed {A} (m : M A) : Prop :=
  forall s, exists l, trace (snd (m s)) = trace s ++ l /\ scan false l = Some false.

Lemma closed_pure {A} (m : M A) :
  (forall s, trace (snd (m s)) = trace s) -> closed m.
Proof. intros H s. exists []. by rewrite H, app_nil_r. Qed.

Lemma closed_emit e : (forall o, scan o [e] = Some o) -> closed (emit e).
Proof. intros H s. exists [e]. split; [done|apply H]. Qed.

Lemma closed_bind {A B} (m : M A) (k : A -> M B) :
  closed m -> (forall a, closed (k a)) -> closed (m ≫= k).
Proof.
  intros Hm Hk s. unfold mbind, M_bind.
  destruct (Hm s) as (l1 & E1 & S1). destruct (m s) as [[a|e] s1]; cbn in *.
  - destruct (Hk a s1) as (l2 & E2 & S2). exists (l1 ++ l2).
    rewrite E2, E1, app_assoc. split; [done|]. by rewrite scan_app, S1.
  - by exists l1.
Qed.

Lemma closed_run_command w c a t : closed (run_command w c a t).
Proof.
  intros s. exists (run_events w c a t). rewrite run_command_frame. split; [done|].
  unfold run_events, run_command, mbind, M_bind, mret, M_ret, emit, add_event; cbn.
  destruct (path_exists w _); cbn; [destruct (subprocess_run w _ t)|]; reflexivity.
Qed.

Ltac closed_tac :=
  repeat match goal with
  | |- closed (mbind _ _) => apply closed_bind; [|intros ?]
  | |- closed (emit _) => apply closed_emit; intros []; reflexivity
  | |- closed (mret _) => apply closed_pure; reflexivity
  | |- closed (raise _) => apply closed_pure; reflexivity
  | |- closed (lift ?r) => destruct r; apply closed_pure; reflexivity
  | |- closed (set_udid _) => apply closed_pure; reflexivity
  | |- closed get_udid => apply closed_pure; reflexivity
  | |- closed (run_command _ _ _ _) => apply closed_run_command
  | |- closed (if ?b then _ else _) => destruct b
  | |- closed (match ?x with _ => _ end) => destruct x
  | |- closed (let _ := _ in _) => cbv zeta
  end.

Lemma closed_unmount_device w : closed (unmount_device w).
Proof. unfold unmount_device. closed_tac. Qed.

Lemma with_lock_trace {A} (body : M A) s :
  closed body ->
  exists l, trace (snd (with_lock body s)) = trace s ++ EvAcquire :: l ++ [EvRelease]
            /\ scan false l = Some false.
Proof.
  intros Hb. unfold with_lock.
  destruct (Hb (add_event s EvAcquire)) as (l & E & S).
  destruct (body (add_event s EvAcquire)) as [r s']; cbn in *.
  exists l. rewrite E. cbn. split; [by rewrite <- !app_assoc|done].
Qed.

Lemma locked_op_idle o w s : o <> Unmount -> idle (op_events o w s) = true.
Proof.
  intros Ho. unfold op_events.
  assert (Hc : exists l, trace (snd (op_method o w (reset s))) = [] ++ EvAcquire :: l ++ [EvRelease]
                         /\ scan false l = Some false).
  { destruct o; [| |done]; cbn [op_method].
    - apply with_lock_trace. closed_tac.
    - apply with_lock_trace. closed_tac. apply closed_unmount_device. }
  destruct Hc as (l & -> & S). cbn. by rewrite held_scan, S.
Qed.

Lemma inv_initial jobs : Forall (fun j => j.1.1 <> Unmount) jobs -> inv (initial jobs).
Proof.
  intros Hj. unfold inv, initial; cbn.
  induction Hj as [|j jobs Hj _ IH]; cbn; [done|].
  destruct IH as (Hv & Hh & Hn).
  pose proof (locked_op_idle j.1.1 j.1.2 j.2 Hj) as Hi.
  destruct (op_events j.1.1 j.1.2 j.2) as [|[] t]; try discriminate.
  assert (Hv' : valid (EvAcquire :: t) = true) by (unfold valid; by rewrite Hi).
  cbn [map count]. change (holder (EvAcquire :: t)) with false.
  change (held true (EvAcquire :: t)) with false.
  rewrite Hh, <- Hn. split; [by constructor|]. done.
Qed.

(** C9 (as amended).  [check_connection] and [mount_device] hold
    [operation_lock] over all their commands: whatever calls of these two
    run concurrently, from whatever manager states and against whatever
    worlds, at most one external process is in flight at any time. *)
Theorem lock_serializes_refresh_and_mount (jobs : list (op * world * dm_state)) (c : conf)
  (Hjobs : Forall (fun j => j.1.1 <> Unmount) jobs)
  (Hreach : rtc cstep (initial jobs) c) :
  inflight c <= 1.
Proof.
  destruct (inv_rtc _ _ Hreach (inv_initial jobs Hjobs)) as (_ & Hh & Hn).
  rewrite Hn. transitivity (count holder (threads c)).
  - apply count_le. intros t Ht. unfold holder. rewrite Ht. apply orb_true_r.
  - rewrite Hh. destruct (locked c); lia.
Qed.

Definition two_polls_and_a_mount : list (op * world * dm_state) :=
  [(Refresh, happy_world, fresh); (Mount, happy_world, {| udid := Some (py "ABCD1234"); trace := [] |});
   (Refresh, hung_world, fresh)].

Lemma lock_serializes_refresh_and_mount_witness :
  exists c, run_sched (initial two_polls_and_a_mount) [0; 0; 0] = Some c /\ inflight c = 1
            /\ inflight c <= 1.
Proof.
  destruct (run_sched (initial two_polls_and_a_mount) [0; 0; 0]) as [c|] eqn:E;
    [|vm_compute in E; discriminate].
  exists c. split; [done|]. split; [revert E; vm_compute; intros [= <-]; reflexivity|].
  apply (lock_serializes_refresh_and_mount two_polls_and_a_mount c).
  - repeat constructor; discriminate.
  - exact (run_sched_sound _ _ _ E).
Defined.

(* ------------------------------------------------------------------ *)
(** ** Further properties of the manager *)

Abbreviation list_cmd := (py "idevice_id.exe").
Abbreviation info_cmd := (py "ideviceinfo.exe").
Abbreviation diag_cmd := (py "idevicediagnostics.exe").
Abbreviation diag_args := [py "ioregentry"; py "AppleSmartBattery"].

(** [check_connection] in closed form, in terms of the three commands. *)
Lemma check_connection_eq w s :
  check_connection w s =
  let r1 := run_value w list_cmd [py "-l"] 30 in
  let e1 := run_events w list_cmd [py "-l"] 30 in
  if no_output r1 then
    (Normal false, {| udid := udid s; trace := trace s ++ [EvAcquire] ++ e1 ++ [EvDevice ∅; EvRelease] |})
  else
    let u := match r1 with Some r => first_udid (stdout r) | None => [] end in
    let r2 := run_value w info_cmd [py "-u"; u] 30 in
    let e2 := run_events w info_cmd [py "-u"; u] 30 in
    let fail := (Normal false, {| udid := Some u;
                                  trace := trace s ++ [EvAcquire] ++ e1 ++ e2 ++ [EvDevice ∅; EvRelease] |}) in
    match r2 with
    | Some ri =>
        if Z.eqb (returncode ri) 0 then
          let e3 := run_events w diag_cmd diag_args 30 in
          match battery_step (run_value w diag_cmd diag_args 30) (parse_info (stdout ri)) with
          | Normal d => (Normal true, {| udid := Some u;
                                         trace := trace s ++ [EvAcquire] ++ e1 ++ e2 ++ e3 ++ [EvDevice d; EvRelease] |})
          | Raise e => (Raise e, {| udid := Some u; trace := trace s ++ [EvAcquire] ++ e1 ++ e2 ++ e3 ++ [EvRelease] |})
          end
        else fail
    | None => fail
    end.
Proof.
  unfold check_connection, with_lock. run_steps.
  destruct (no_output _) eqn:Hn; cbn -[py run_value run_events first_udid].
  - by rewrite <- ?app_assoc.
  - run_steps. destruct (run_value w info_cmd _ 30) as [ri|]; cbn -[py run_value run_events first_udid].
    + destruct (Z.eqb (returncode ri) 0); cbn -[py run_value run_events first_udid battery_step].
      * run_steps. unfold parse_info.
        destruct (battery_step _ _); cbn -[py run_value run_events]; by rewrite <- ?app_assoc.
      * by rewrite <- ?app_assoc.
    + by rewrite <- ?app_assoc.
Qed.

Lemma scan_no_lock o l o' : scan o l = Some o' -> ~ In EvAcquire l /\ ~ In EvRelease l.
Proof.
  revert o. induction l as [|e l IH]; intros o H; [split; intros []|].
  assert (Hr : exists o1, scan o1 l = Some o' /\ e <> EvAcquire /\ e <> EvRelease).
  { destruct e; cbn in H; try discriminate; try (destruct o; try discriminate);
      eexists; (split; [exact H|]); split; discriminate. }
  destruct Hr as (o1 & H1 & Ha & Hr). destruct (IH _ H1) as [Ia Ir].
  split; cbn; intros [E|E]; [by apply Ha|done|by apply Hr|done].
Qed.

Lemma with_lock_no_lock {A} (body : M A) s :
  closed body ->
  exists l, trace (snd (with_lock body s)) = trace s ++ EvAcquire :: l ++ [EvRelease]
            /\ ~ In EvAcquire l /\ ~ In EvRelease l.
Proof.
  intros Hb. destruct (with_lock_trace body s Hb) as (l & E & S).
  exists l. split; [exact E|]. exact (scan_no_lock _ _ _ S).
Qed.

(** X1. Whatever the world and the manager's state, [check_connection] and
    [mount_device] take [operation_lock] first and release it last, also when
    [check_connection] raises, and take or release it nowhere in between. *)
Theorem locked_ops_release_lock (w : world) (s : dm_state) :
  (exists l, trace (snd (check_connection w s)) = trace s ++ EvAcquire :: l ++ [EvRelease]
             /\ ~ In EvAcquire l /\ ~ In EvRelease l)
  /\ (exists l, trace (snd (mount_device w s)) = trace s ++ EvAcquire :: l ++ [EvRelease]
                /\ ~ In EvAcquire l /\ ~ In EvRelease l).
Proof.
  split.
  - unfold check_connection. apply with_lock_no_lock. closed_tac.
  - unfold mount_device. apply with_lock_no_lock. closed_tac. apply closed_unmount_device.
Qed.

(** X2. Each call of [check_connection] that returns publishes exactly one
    dict, the empty one whenever it returns [False]; a call that raises
    publishes nothing. *)
Theorem check_connection_publishes_once (w : world) (s : dm_state) :
  match fst (check_connection w s) with
  | Normal b => exists d, published (trace (snd (check_connection w s))) = published (trace s) ++ [d]
                          /\ (b = false -> d = ∅)
  | Raise _ => published (trace (snd (check_connection w s))) = published (trace s)
  end.
Proof.
  rewrite check_connection_eq. cbv zeta.
  destruct (no_output _); cbn [fst snd trace].
  { exists ∅. rewrite !published_app, published_run_events. split; [reflexivity|done]. }
  destruct (run_value w info_cmd _ 30) as [ri|]; cbn [fst snd trace].
  2: { exists ∅. rewrite !published_app, !published_run_events. split; [reflexivity|done]. }
  destruct (Z.eqb (returncode ri) 0); cbn [fst snd trace].
  2: { exists ∅. rewrite !published_app, !published_run_events. split; [reflexivity|done]. }
  destruct (battery_step _ _) as [d|e]; cbn [fst snd trace].
  - exists d. rewrite !published_app, !published_run_events. split; [reflexivity|discriminate].
  - rewrite !published_app, !published_run_events. cbn. by rewrite !app_nil_r.
Qed.

Lemma battery_loop_other lines di d k :
  battery_loop lines di = Normal d -> k <> BatteryLevel -> d !! k = di !! k.
Proof.
  revert di. induction lines as [|line rest IH]; intros di H Hk; cbn [battery_loop] in H.
  - by injection H as <-.
  - revert H. destruct (contains CurrentCapacity line); intros H; [|exact (IH _ H Hk)].
    revert H. destruct (nth_error _ 1) as [v|]; intros H; [|discriminate].
    rewrite (IH _ H Hk). rewrite lookup_insert_ne; [done|congruence].
Qed.

Lemma battery_step_other r di d k :
  battery_step r di = Normal d -> k <> BatteryLevel -> d !! k = di !! k.
Proof.
  destruct r as [r|]; cbn [battery_step]; [|by intros [= <-]].
  destruct (contains CurrentCapacity (stdout r)); [apply battery_loop_other|by intros [= <-]].
Qed.

(** X3. [check_connection] returns [True] exactly when the listing printed a
    non-blank output, [ideviceinfo -u <first line>] exited with status 0 and
    the battery step did not raise; the dict it then publishes last agrees
    with the parsed info dump on every key other than ["BatteryLevel"]. *)
Theorem check_connection_true_iff (w : world) (s : dm_state) :
  fst (check_connection w s) = Normal true <->
  exists r ri d,
    run_value w list_cmd [py "-l"] 30 = Some r /\ no_output (Some r) = false
    /\ run_value w info_cmd [py "-u"; first_udid (stdout r)] 30 = Some ri /\ returncode ri = 0%Z
    /\ battery_step (run_value w diag_cmd diag_args 30) (parse_info (stdout ri)) = Normal d
    /\ last (published (trace (snd (check_connection w s)))) = Some d
    /\ (forall k, k <> BatteryLevel -> d !! k = parse_info (stdout ri) !! k).
Proof.
  rewrite check_connection_eq. cbv zeta. split.
  - destruct (run_value w list_cmd _ 30) as [r|] eqn:E1; [|cbn; intros H; discriminate H].
    destruct (no_output (Some r)) eqn:Hn; [cbn; intros H; discriminate H|].
    destruct (run_value w info_cmd _ 30) as [ri|] eqn:E2; [|cbn; intros H; discriminate H].
    destruct (Z.eqb (returncode ri) 0) eqn:Hz; [|cbn; intros H; discriminate H].
    destruct (battery_step _ _) as [d|e] eqn:Hb; [|cbn; intros H; discriminate H].
    intros _. exists r, ri, d. repeat split; try done.
    + by apply Z.eqb_eq.
    + cbn [snd trace]. rewrite !published_app, !published_run_events. cbn. apply last_snoc.
    + intros k Hk. exact (battery_step_other _ _ _ _ Hb Hk).
  - intros (r & ri & d & E1 & Hn & E2 & Hz & Hb & _).
    rewrite E1, Hn, E2. apply Z.eqb_eq in Hz. rewrite Hz, Hb. reflexivity.
Qed.

Lemma lstrip_head s c t : lstrip s = c :: t -> py_isspace c = false.
Proof.
  induction s as [|x s IH]; cbn; [discriminate|].
  destruct (py_isspace x) eqn:E; [exact IH|]. by intros [= <- _].
Qed.

Lemma lstrip_snoc l c : py_isspace c = false -> exists m, lstrip (l ++ [c]) = m ++ [c].
Proof.
  intros Hc. induction l as [|x l IH]; cbn.
  - rewrite Hc. by exists [].
  - destruct (py_isspace x); [exact IH|]. by exists (x :: l).
Qed.

Lemma py_strip_cons c t : py_isspace c = false -> exists m, py_strip (c :: t) = c :: m.
Proof.
  intros Hc. unfold py_strip. cbn [lstrip]. rewrite Hc. cbn [rev].
  destruct (lstrip_snoc (rev t) c Hc) as [m ->]. exists (rev m). by rewrite rev_app_distr.
Qed.

Lemma py_strip_head s c t : py_strip s = c :: t -> py_isspace c = false.
Proof.
  unfold py_strip. destruct (lstrip s) as [|c0 t0] eqn:E; [discriminate|].
  pose proof (lstrip_head _ _ _ E) as Hc0.
  destruct (py_strip_cons c0 t0 Hc0) as [m Hm]. unfold py_strip in Hm.
  cbn [lstrip] in Hm. rewrite Hc0 in Hm. rewrite Hm. by intros [= <- _].
Qed.

Lemma py_split_first sep s :
  match py_split sep s with
  | seg :: _ => ~ In sep seg /\ (s = seg \/ exists rest, s = seg ++ sep :: rest)
  | [] => False
  end.
Proof.
  induction s as [|c s IH]; cbn.
  - split; [intros []|by left].
  - destruct (ascii_dec c sep) as [->|Hc].
    + split; [intros []|]. right. by exists s.
    + destruct (py_split sep s) as [|seg segs]; [done|].
      destruct IH as [Hin [->|[rest ->]]]; (split; [intros [E|E]; [by apply Hc|done]|]).
      * by left.
      * right. by exists rest.
Qed.

Lemma first_udid_spec out :
  py_strip out <> [] ->
  first_udid out <> [] /\ ~ In LF (first_udid out)
  /\ (forall c t, first_udid out = c :: t -> py_isspace c = false)
  /\ (py_strip out = first_udid out \/ exists rest, py_strip out = first_udid out ++ LF :: rest).
Proof.
  intros Hne. unfold first_udid.
  destruct (py_strip out) as [|c t] eqn:Hs; [done|].
  pose proof (py_strip_head _ _ _ Hs) as Hc.
  pose proof (py_split_first LF (c :: t)) as Hf.
  assert (HcLF : c <> LF) by (intros ->; discriminate).
  destruct (py_split LF (c :: t)) as [|seg segs]; [done|].
  destruct Hf as (Hin & Heq).
  assert (Hseg : exists t', seg = c :: t').
  { destruct seg as [|c' t']; [|destruct Heq as [E|[rest E]]; injection E as -> _; by exists t'].
    destruct Heq as [E|[rest E]]; [discriminate|]. injection E as E _. done. }
  destruct Hseg as [t' ->]. repeat split.
  - discriminate.
  - exact Hin.
  - by intros c' t'' [= <- _].
  - exact Heq.
Qed.

(** X4. When the listing prints a non-blank output, [check_connection]
    stores as identifier its stripped output up to the first ["\n"]: a
    non-empty string that holds no ["\n"] and does not start with white space.
    (The identifier is stored before [ideviceinfo] runs, whatever follows.) *)
Theorem check_connection_stores_first_line (w : world) (s : dm_state) (r : completed)
  (Hlist : run_value w list_cmd [py "-l"] 30 = Some r)
  (Hout : no_output (Some r) = false) :
  exists u, udid (snd (check_connection w s)) = Some u
    /\ u <> [] /\ ~ In LF u /\ (forall c t, u = c :: t -> py_isspace c = false)
    /\ (py_strip (stdout r) = u \/ exists rest, py_strip (stdout r) = u ++ LF :: rest).
Proof.
  assert (Hne : py_strip (stdout r) <> []).
  { cbn [no_output] in Hout. by destruct (py_strip (stdout r)). }
  exists (first_udid (stdout r)). split; [|exact (first_udid_spec _ Hne)].
  rewrite check_connection_eq. cbv zeta. rewrite Hlist, Hout.
  destruct (run_value w info_cmd _ 30) as [ri|]; [|reflexivity].
  destruct (Z.eqb (returncode ri) 0); [|reflexivity].
  by destruct (battery_step _ _).
Qed.

Lemma check_connection_stores_first_line_witness :
  exists u, udid (snd (check_connection happy_world fresh)) = Some u
    /\ u <> [] /\ ~ In LF u /\ (forall c t, u = c :: t -> py_isspace c = false)
    /\ (py_strip (py "ABCD1234" ++ nl) = u \/ exists rest, py_strip (py "ABCD1234" ++ nl) = u ++ LF :: rest).
Proof.
  apply (check_connection_stores_first_line happy_world fresh
           {| returncode := 0; stdout := py "ABCD1234" ++ nl; stderr := [] |});
    vm_compute; reflexivity.
Defined.

(** Calls of manager methods one after the other, each against its own
    world; an exception ends the sequence. *)
Fixpoint run_ops (ops : list (op * world)) (s : dm_state) : dm_state :=
  match ops with
  | [] => s
  | (o, w) :: rest =>
      match op_method o w s with
      | (Normal _, s') => run_ops rest s'
      | (Raise _, s') => s'
      end
  end.

Lemma unmount_device_eq w s :
  unmount_device w s =
  (Normal (info_ok (run_value w (py "fusermount.exe") [py "-u"; mount_point] 30)),
   {| udid := udid s; trace := trace s ++ run_events w (py "fusermount.exe") [py "-u"; mount_point] 30 |}).
Proof. unfold unmount_device. run_steps. reflexivity. Qed.

Lemma op_keeps_udid o w s u :
  udid s = Some u -> u <> [] -> exists u', udid (snd (op_method o w s)) = Some u' /\ u' <> [].
Proof.
  intros Hu Hne. destruct o; cbn [op_method].
  - rewrite check_connection_eq. cbv zeta.
    destruct (run_value w list_cmd _ 30) as [r|] eqn:E1; [|by exists u].
    destruct (no_output (Some r)) eqn:Hn; [by exists u|].
    assert (Hs : py_strip (stdout r) <> []) by (cbn [no_output] in Hn; by destruct (py_strip (stdout r))).
    exists (first_udid (stdout r)). split; [|exact (proj1 (first_udid_spec _ Hs))].
    destruct (run_value w info_cmd _ 30) as [ri|]; [|reflexivity].
    destruct (Z.eqb (returncode ri) 0); [|reflexivity]. by destruct (battery_step _ _).
  - exists u. by rewrite (mount_device_udid w s u Hu Hne).
  - exists u. by rewrite unmount_device_eq.
Qed.

(** X5. Once an identifier is stored, no sequence of [check_connection],
    [mount_device] and [unmount_device] calls, against whatever worlds, ever
    clears it: the manager keeps a non-empty identifier (the last one a poll
    listed), so [mount_device]'s [if not self.udid] check never fails again. *)
Theorem udid_never_cleared (ops : list (op * world)) (s : dm_state) (u : pystr)
  (Hu : udid s = Some u) (Hne : u <> []) :
  exists u', udid (run_ops ops s) = Some u' /\ u' <> [].
Proof.
  revert s u Hu Hne. induction ops as [|[o w] ops IH]; intros s u Hu Hne; cbn [run_ops].
  - by exists u.
  - destruct (op_keeps_udid o w s u Hu Hne) as (u' & Hu' & Hne').
    destruct (op_method o w s) as [[b|e] s'] eqn:E; cbn in Hu'.
    + exact (IH s' u' Hu' Hne').
    + by exists u'.
Qed.

Lemma udid_never_cleared_witness :
  exists u', udid (run_ops [(Refresh, empty_world); (Mount, happy_world); (Unmount, happy_world);
                            (Refresh, info_fails_world)]
                           {| udid := Some (py "ABCD1234"); trace := [] |}) = Some u' /\ u' <> [].
Proof.
  apply (udid_never_cleared _ {| udid := Some (py "ABCD1234"); trace := [] |} (py "ABCD1234"));
    [reflexivity|discriminate].
Defined.

(** X6. [unmount_device] runs [fusermount.exe -u Z:\] and nothing else,
    whatever identifier is stored: it never raises, never takes
    [operation_lock], publishes no dict, leaves the identifier as it is, and
    returns [True] exactly when that command completed with exit code 0. *)
Theorem unmount_device_spec (w : world) (s : dm_state) :
  exists l b,
    unmount_device w s = (Normal b, {| udid := udid s; trace := trace s ++ l |})
    /\ (exists l', l = EvCall (py "fusermount.exe") [py "-u"; mount_point] :: l')
    /\ ~ In EvAcquire l /\ ~ In EvRelease l /\ published l = []
    /\ (forall c a, In (EvCall c a) l -> c = py "fusermount.exe" /\ a = [py "-u"; mount_point])
    /\ (b = true <-> exists r, run_value w (py "fusermount.exe") [py "-u"; mount_point] 30 = Some r
                              /\ returncode r = 0%Z).
Proof.
  rewrite unmount_device_eq.
  eexists _, _. split; [reflexivity|].
  destruct (scan_no_lock false (run_events w (py "fusermount.exe") [py "-u"; mount_point] 30) false)
    as [Ha Hr].
  { destruct (closed_run_command w (py "fusermount.exe") [py "-u"; mount_point] 30 fresh) as (l & E & S).
    rewrite run_command_frame in E. cbn in E. by subst l. }
  split; [apply run_events_head|]. split; [exact Ha|]. split; [exact Hr|].
  split; [apply published_run_events|]. split.
  - unfold run_events, run_command, mbind, M_bind, mret, M_ret, emit, add_event. cbn -[py].
    intros c a. destruct (path_exists w _); cbn -[py]; [destruct (subprocess_run w _ 30)|];
      cbn -[py]; intros Hin; repeat destruct Hin as [Hin|Hin]; try discriminate; try done;
      injection Hin as <- <-; done.
  - unfold info_ok. destruct (run_value w _ _ 30) as [r|]; split.
    + intros H. exists r. split; [done|]. by apply Z.eqb_eq.
    + intros (r' & [= <-] & H). by apply Z.eqb_eq.
    + discriminate.
    + by intros (r' & E & _).
Qed.
